(** * figs.py: the PF00014 contact-map figure

    A shallow embedding of [contact_plot_PF00014] (figs.py, lines 14-44).

    The routine is Python glue around three outside libraries, so the
    embedding has three layers:

    - Python objects that are passed by reference and can be written to (the
      three argument lists and the [pprops] dictionary) live in a store,
      a [gmap] from locations to objects;
    - the part of numpy the routine uses ([np.array], [.T], indexing and
      [+ 1]) is embedded as functions on an [ndarray] type that keeps the
      shape, because the shape decides whether indexing raises;
    - calls into matplotlib and mplot are recorded, with the argument
      values they receive, in a trace of events.  These libraries are not
      part of the repository: a recorded call is taken to return normally
      and to leave the caller's objects alone.

    Residue indices are Python ints and are kept as [Z], and [+ 1] is exact
    addition.  numpy holds the entries of an array in a fixed-width type:
    64-bit signed integers for a list of Python ints that all fit, where
    [+ 1] wraps at the largest value, and another type (unsigned, floating
    or object) for a list with larger entries.  The integers of the
    embedding are therefore the entries of the code's arrays on lists of
    [int64_safe] pairs, which include every alignment position; every
    theorem that states the value of a coordinate carries that bound, and
    the theorems without it state what does not depend on the values. *)

From stdpp Require Import gmap strings list fin_maps.

Local Open Scope Z_scope.

(** ** Module-level colour constants (figs.py, lines 7-9) *)

Definition C_CONTACT  : string := "#f0f0f0".
Definition C_TRUEPOS  : string := "#fd8d3c".
Definition C_FALSEPOS : string := "#6baed6".

(** ** Python values held in keyword dictionaries *)

#[local] Set Warnings "-register-all".

Inductive pyval : Type :=
| VInt  (z : Z)
| VStr  (s : string)
| VBool (b : bool)
| VList (l : list pyval)
| VDict (d : list (string * pyval)).

(** A contact is a pair of zero-based residue indices. *)
Abbreviation pair_list := (list (Z * Z)) (only parsing).

(** A pair whose two indices fit a 64-bit signed integer with room for the
    shift by one.  On a list of such pairs [np.array] gives a 64-bit
    integer array and [+ 1] does not wrap. *)
Definition int64_safe (p : Z * Z) : Prop :=
  - 2 ^ 63 <= p.1 <= 2 ^ 63 - 2 /\ - 2 ^ 63 <= p.2 <= 2 ^ 63 - 2.

(** Addition of 64-bit signed integers, as numpy performs it on such an
    array: the sum modulo [2 ^ 64], taken in [[-2^63, 2^63)]. *)
Definition int64_add (a b : Z) : Z :=
  (a + b + 2 ^ 63) mod 2 ^ 64 - 2 ^ 63.

(** ** The numpy fragment *)

(** An array with its shape: no axis (a scalar), one axis of
    [length v] entries, or two axes, [length rows] by [cols]. *)
Inductive ndarray : Type :=
| Arr0 (z : Z)
| Arr1 (v : list Z)
| Arr2 (cols : nat) (rows : list (list Z)).

Inductive exn : Type :=
| IndexError.

(** [np.array] on a Python list of pairs.  The empty list has no inner
    sequence to take a second axis from: the result has the single axis of
    length 0.  A list of [n > 0] pairs gives shape [(n, 2)].  The shape is
    the code's for every list; the entries are the code's on lists of
    [int64_safe] pairs (numpy stores larger entries in another type). *)
Definition np_array (l : pair_list) : ndarray :=
  match l with
  | [] => Arr1 []
  | _ :: _ => Arr2 2 (map (fun p => [p.1; p.2]) l)
  end.

Definition column (k : nat) (rows : list (list Z)) : list Z :=
  map (fun r => nth k r 0) rows.

(** [a.T]: reverses the axes; an array of fewer than two axes is
    returned as it is. *)
Definition np_T (a : ndarray) : ndarray :=
  match a with
  | Arr0 z => Arr0 z
  | Arr1 v => Arr1 v
  | Arr2 cols rows => Arr2 (length rows) (map (fun k => column k rows) (seq 0 cols))
  end.

(** [a[k]] for a non-negative integer [k]: indexes the first axis and
    raises [IndexError] when [k] is out of bounds for it (always, for a
    scalar or an axis of length 0). *)
Definition np_getitem (a : ndarray) (k : nat) : exn + ndarray :=
  match a with
  | Arr0 _ => inl IndexError
  | Arr1 v =>
      match v !! k with
      | Some z => inr (Arr0 z)
      | None => inl IndexError
      end
  | Arr2 _ rows =>
      match rows !! k with
      | Some r => inr (Arr1 r)
      | None => inl IndexError
      end
  end.

(** [a + c], the scalar broadcast over every entry; a new array of the
    same shape.  The sums are exact, as the code's are on [int64_safe]
    entries with [c = 1]; 64-bit addition wraps beyond them. *)
Definition np_add (a : ndarray) (c : Z) : ndarray :=
  match a with
  | Arr0 z => Arr0 (z + c)
  | Arr1 v => Arr1 (map (fun z => z + c) v)
  | Arr2 cols rows => Arr2 cols (map (map (fun z => z + c)) rows)
  end.

(** ** Store, trace and the monad of the routine *)

Definition loc : Type := positive.
Bind Scope positive_scope with loc.

Inductive pyobj : Type :=
| OList (l : pair_list)
| ODict (d : gmap string pyval).

(** Handles returned by matplotlib. *)
Inductive figure : Type := Figure (w h : Z).
Inductive axes : Type := Axes (spec : Z).

(** Calls into the plotting libraries, with what they are handed. *)
Inductive event : Type :=
| PltFigure  (figsize : Z * Z)
| PltSubplot (spec : Z)
| MpPlot     (type : string) (ax : axes) (x y : list ndarray)
             (kwargs : gmap string pyval)
| MpScatter  (ax : axes) (x y : list (list Z)) (kwargs : gmap string pyval)
| AxText     (ax : axes) (x y : Z) (s : string) (ha va : string)
             (kwargs : gmap string pyval)
| PltShow.

Record state : Type := State {
  heap  : gmap loc pyobj;
  trace : list event
}.

(** How a computation ends: with a value, with a Python exception, or
    [Wrong] when a location does not hold the kind of object the code
    reads there (no Python caller can make that happen). *)
Inductive result (A : Type) : Type :=
| Ok (a : A)
| Raised (e : exn)
| Wrong.
Arguments Ok {A} a.
Arguments Raised {A} e.
Arguments Wrong {A}.

Definition M (A : Type) : Type := state -> result A * state.

#[global] Instance M_ret : MRet M := fun A a s => (Ok a, s).

#[global] Instance M_bind : MBind M := fun A B f m s =>
  match m s with
  | (Ok a, s') => f a s'
  | (Raised e, s') => (Raised e, s')
  | (Wrong, s') => (Wrong, s')
  end.

Definition lift {A : Type} (r : exn + A) : M A := fun s =>
  match r with
  | inl e => (Raised e, s)
  | inr a => (Ok a, s)
  end.

Definition emit (ev : event) : M unit := fun s =>
  (Ok tt, State (heap s) (trace s ++ [ev])).

Definition alloc (o : pyobj) : M loc := fun s =>
  let l := fresh (dom (heap s)) in
  (Ok l, State (<[l := o]> (heap s)) (trace s)).

Definition read_list (l : loc) : M pair_list := fun s =>
  match heap s !! l with
  | Some (OList ps) => (Ok ps, s)
  | _ => (Wrong, s)
  end.

Definition read_dict (l : loc) : M (gmap string pyval) := fun s =>
  match heap s !! l with
  | Some (ODict d) => (Ok d, s)
  | _ => (Wrong, s)
  end.

(** [d[k] = v] on the dictionary object at [l]. *)
Definition dict_setitem (l : loc) (k : string) (v : pyval) : M unit := fun s =>
  match heap s !! l with
  | Some (ODict d) => (Ok tt, State (<[l := ODict (<[k := v]> d)]> (heap s)) (trace s))
  | _ => (Wrong, s)
  end.

(** ** The library calls of the routine *)

Definition plt_figure (figsize : Z * Z) : M figure :=
  _ ← emit (PltFigure figsize); mret (Figure figsize.1 figsize.2).

Definition plt_subplot (spec : Z) : M axes :=
  _ ← emit (PltSubplot spec); mret (Axes spec).

Definition plt_show : M unit := emit PltShow.

(** [np.array(l)] copies the list at [l] into a new array. *)
Definition np_array_of (l : loc) : M ndarray :=
  ps ← read_list l; mret (np_array ps).

(** The sub-expression [a.T[k]+1]. *)
Definition T_item_plus1 (a : ndarray) (k : nat) : M ndarray :=
  r ← lift (np_getitem (np_T a) k); mret (np_add r 1).

Definition ints (l : list Z) : pyval := VList (VInt <$> l).
Definition strs (l : list string) : pyval := VList (VStr <$> l).

(** ** The routine (figs.py, lines 14-44) *)

(** The dictionary literal bound to [pprops] (lines 19-27). *)
Definition pprops_init : gmap string pyval :=
  list_to_map
    [ ("colors", strs [C_CONTACT; C_CONTACT; C_TRUEPOS; C_TRUEPOS; C_FALSEPOS; C_FALSEPOS]);
      ("xlim", ints [1; 55]);
      ("ylim", ints [1; 55]);
      ("xticks", ints [0; 10; 20; 30; 40; 50; 55]);
      ("yticks", ints [0; 10; 20; 30; 40; 50; 55]);
      ("xlabel", VStr "PF00014 sites");
      ("ylabel", VStr "PF00014 sites");
      ("plotprops", VDict [("lw", VInt 0); ("s", VInt 25); ("marker", VStr "o");
                           ("clip_on", VBool false)]);
      ("theme", VStr "boxed") ].

Section Figure.

(** [mp.def_labelprops]: a dictionary owned by mplot, unpacked into the
    keyword arguments of every [ax.text] call. *)
Variable def_labelprops : gmap string pyval.

Definition contact_plot_PF00014
    (other_contacts true_positives false_positives : loc) : M unit :=
  fig ← plt_figure (5, 5);
  ax ← plt_subplot 111;
  pprops ← alloc (ODict pprops_init);
  oc ← np_array_of other_contacts;
  tp ← np_array_of true_positives;
  fp ← np_array_of false_positives;
  x0 ← T_item_plus1 oc 0; x1 ← T_item_plus1 oc 1;
  x2 ← T_item_plus1 tp 0; x3 ← T_item_plus1 tp 1;
  x4 ← T_item_plus1 fp 0; x5 ← T_item_plus1 fp 1;
  let x := [x0; x1; x2; x3; x4; x5] in
  y0 ← T_item_plus1 oc 1; y1 ← T_item_plus1 oc 0;
  y2 ← T_item_plus1 tp 1; y3 ← T_item_plus1 tp 0;
  y4 ← T_item_plus1 fp 1; y5 ← T_item_plus1 fp 0;
  let y := [y0; y1; y2; y3; y4; y5] in
  kw ← read_dict pprops;
  _ ← emit (MpPlot "scatter" ax x y kw);
  _ ← dict_setitem pprops "colors" (strs [C_CONTACT; C_TRUEPOS; C_FALSEPOS]);
  kw ← read_dict pprops;
  _ ← emit (MpScatter ax [[56]; [56]; [56]] [[52]; [48]; [44]] kw);
  _ ← emit (AxText ax 57 52 "Other contacts" "left" "center" def_labelprops);
  _ ← emit (AxText ax 57 48 "True positives" "left" "center" def_labelprops);
  _ ← emit (AxText ax 57 44 "False positives" "left" "center" def_labelprops);
  plt_show.

End Figure.

(** ** One call, observed

    The routine is run on a store [h] with an empty trace, so that the
    trace at the end holds the calls of this invocation alone. *)

Definition run (lp : gmap string pyval) (l1 l2 l3 : loc) (h : gmap loc pyobj)
  : result unit * state :=
  contact_plot_PF00014 lp l1 l2 l3 (State h []).

Definition outcome_of lp l1 l2 l3 h : result unit := (run lp l1 l2 l3 h).1.
Definition events_of lp l1 l2 l3 h : list event := trace (run lp l1 l2 l3 h).2.
Definition heap_of lp l1 l2 l3 h : gmap loc pyobj := heap (run lp l1 l2 l3 h).2.

(** The three argument names are bound to list objects of the store. *)
Definition inputs_at (h : gmap loc pyobj) (l1 l2 l3 : loc)
    (oc tp fp : pair_list) : Prop :=
  h !! l1 = Some (OList oc) ∧ h !! l2 = Some (OList tp) ∧ h !! l3 = Some (OList fp).

(** *** What the plotting layer is handed *)

(** First and second coordinates of a category, shifted to 1-based. *)
Definition firsts (ps : pair_list) : ndarray := Arr1 (map (fun p => p.1 + 1) ps).
Definition seconds (ps : pair_list) : ndarray := Arr1 (map (fun p => p.2 + 1) ps).

Definition main_x (oc tp fp : pair_list) : list ndarray :=
  [firsts oc; seconds oc; firsts tp; seconds tp; firsts fp; seconds fp].
Definition main_y (oc tp fp : pair_list) : list ndarray :=
  [seconds oc; firsts oc; seconds tp; firsts tp; seconds fp; firsts fp].

Definition legend_colors : pyval := strs [C_CONTACT; C_TRUEPOS; C_FALSEPOS].
Definition pprops_legend : gmap string pyval := <["colors" := legend_colors]> pprops_init.

Definition setup_events : list event := [PltFigure (5, 5); PltSubplot 111].

Definition main_event (oc tp fp : pair_list) : event :=
  MpPlot "scatter" (Axes 111) (main_x oc tp fp) (main_y oc tp fp) pprops_init.

Definition legend_events (lp : gmap string pyval) : list event :=
  [ MpScatter (Axes 111) [[56]; [56]; [56]] [[52]; [48]; [44]] pprops_legend;
    AxText (Axes 111) 57 52 "Other contacts" "left" "center" lp;
    AxText (Axes 111) 57 48 "True positives" "left" "center" lp;
    AxText (Axes 111) 57 44 "False positives" "left" "center" lp ].

(** *** Reading a trace

    The three categories, in the order of the arguments. *)
Inductive category : Type := Other | TruePos | FalsePos.

Definition index (c : category) : nat :=
  match c with Other => 0 | TruePos => 1 | FalsePos => 2 end.


Definition select (c : category) (oc tp fp : pair_list) : pair_list :=
  match c with Other => oc | TruePos => tp | FalsePos => fp end.

(** The [mp.plot] calls of a trace: coordinate lists and keywords. *)
Definition main_calls (t : list event)
  : list (list ndarray * list ndarray * gmap string pyval) :=
  omap (fun e => match e with
                 | MpPlot _ _ x y kw => Some (x, y, kw)
                 | _ => None
                 end) t.

(** The [mp.scatter] calls of a trace (the legend markers). *)
Definition legend_calls (t : list event)
  : list (list (list Z) * list (list Z) * gmap string pyval) :=
  omap (fun e => match e with
                 | MpScatter _ x y kw => Some (x, y, kw)
                 | _ => None
                 end) t.

(** The [ax.text] calls of a trace: position, text and alignment. *)
Definition labels (t : list event) : list (Z * Z * string * string * string) :=
  omap (fun e => match e with
                 | AxText _ x y s ha va _ => Some (x, y, s, ha, va)
                 | _ => None
                 end) t.

(** The keyword dictionaries of every plotting call of a trace. *)
Definition plot_kwargs (t : list event) : list (gmap string pyval) :=
  omap (fun e => match e with
                 | MpPlot _ _ _ _ kw => Some kw
                 | MpScatter _ _ _ kw => Some kw
                 | _ => None
                 end) t.

Definition entries (a : ndarray) : list Z :=
  match a with
  | Arr0 z => [z]
  | Arr1 v => v
  | Arr2 _ rows => concat rows
  end.

(** Sub-list [k] of a scatter call: its point number [p] sits at
    [(x[k][p], y[k][p])]. *)
Definition layer (x y : list ndarray) (k : nat) : list (Z * Z) :=
  match x !! k, y !! k with
  | Some a, Some b => zip (entries a) (entries b)
  | _, _ => []
  end.

(** Category [c] owns sub-lists [2c] and [2c+1] of the main call. *)
Definition category_points (x y : list ndarray) (c : category) : list (Z * Z) :=
  (layer x y (2 * index c) ++ layer x y (2 * index c + 1))%nat.

(** The display points a trace holds for category [c]. *)
Definition display_points (t : list event) (c : category) : list (Z * Z) :=
  flat_map (fun call => category_points call.1.1 call.1.2 c) (main_calls t).

Definition colors_of (kw : gmap string pyval) : list string :=
  match kw !! "colors" with
  | Some (VList l) => omap (fun v => match v with VStr s => Some s | _ => None end) l
  | _ => []
  end.

(** Points of a scatter call, each with the colour of its sub-list. *)
Fixpoint colored (xs ys : list (list Z)) (cs : list string) : list (Z * Z * string) :=
  match xs, ys, cs with
  | x :: xs', y :: ys', c :: cs' => map (fun p => (p, c)) (zip x y) ++ colored xs' ys' cs'
  | _, _, _ => []
  end.

Definition legend_markers (t : list event) : list (Z * Z * string) :=
  flat_map (fun call => colored call.1.1 call.1.2 (colors_of call.2)) (legend_calls t).

(** The fixed part of the plot configuration. *)
Definition axis_config (kw : gmap string pyval) : Prop :=
  kw !! "xlim" = Some (ints [1; 55]) /\
  kw !! "ylim" = Some (ints [1; 55]) /\
  kw !! "xticks" = Some (ints [0; 10; 20; 30; 40; 50; 55]) /\
  kw !! "yticks" = Some (ints [0; 10; 20; 30; 40; 50; 55]) /\
  kw !! "xlabel" = Some (VStr "PF00014 sites") /\
  kw !! "ylabel" = Some (VStr "PF00014 sites").

Definition all_nonempty (oc tp fp : pair_list) : bool :=
  negb (bool_decide (oc = [])) && negb (bool_decide (tp = [])) && negb (bool_decide (fp = [])).

(** A store holding the three lists as separate objects, and one holding a
    single list that a caller passes three times. *)
Definition store_of (oc tp fp : pair_list) : gmap loc pyobj :=
  <[1%positive := OList oc]> (<[2%positive := OList tp]> (<[3%positive := OList fp]> ∅)).

Definition shared_store (ps : pair_list) : gmap loc pyobj :=
  <[7%positive := OList ps]> ∅.

(** A label dictionary to run examples with. *)
Definition sample_labelprops : gmap string pyval :=
  <["size" := VInt 6]> (<["clip_on" := VBool false]> ∅).

(** *** Two calls in a row, and predicates on indices and points *)

(** The routine called twice on the same three arguments, the second call
    starting where the first one stopped. *)
Definition run_twice (lp : gmap string pyval) (l1 l2 l3 : loc) (h : gmap loc pyobj)
  : result unit * state :=
  (_ ← contact_plot_PF00014 lp l1 l2 l3; contact_plot_PF00014 lp l1 l2 l3) (State h []).

(** A pair of residue indices of the 55 alignment sites. *)
Definition on_alignment (p : Z * Z) : Prop :=
  0 <= p.1 <= 54 /\ 0 <= p.2 <= 54.

(** A point inside the axis limits [1, 55] x [1, 55] of [pprops]. *)
Definition within_limits (q : Z * Z) : Prop :=
  1 <= q.1 <= 55 /\ 1 <= q.2 <= 55.

(** The same contact, stored in either order. *)
Definition same_contact (p q : Z * Z) : Prop :=
  q = p \/ q = (p.2, p.1).

(** ** Lemmas on the numpy fragment *)

(** On [int64_safe] pairs the shift by one in 64-bit arithmetic is the
    exact one; at the largest 64-bit value it is not. *)
Lemma int64_add_exact (p : Z * Z) :
  int64_safe p -> int64_add p.1 1 = p.1 + 1 /\ int64_add p.2 1 = p.2 + 1.
Proof.
  unfold int64_safe, int64_add. intros [H1 H2].
  split; rewrite Z.mod_small; lia.
Qed.

Example int64_add_wraps : int64_add (2 ^ 63 - 1) 1 = - 2 ^ 63.
Proof. reflexivity. Qed.

Lemma T_item_nonempty_0 (p : Z * Z) (ps : pair_list) :
  np_getitem (np_T (np_array (p :: ps))) 0 = inr (Arr1 (map fst (p :: ps))).
Proof.
  cbn -[map]. unfold column. f_equal. f_equal.
  rewrite map_map. reflexivity.
Qed.

Lemma T_item_nonempty_1 (p : Z * Z) (ps : pair_list) :
  np_getitem (np_T (np_array (p :: ps))) 1 = inr (Arr1 (map snd (p :: ps))).
Proof.
  cbn -[map]. unfold column. f_equal. f_equal.
  rewrite map_map. reflexivity.
Qed.

Lemma T_item_empty (k : nat) : np_getitem (np_T (np_array [])) k = inl IndexError.
Proof. reflexivity. Qed.

Lemma T_item_plus1_first (p : Z * Z) (ps : pair_list) (s : state) :
  T_item_plus1 (np_array (p :: ps)) 0 s = (Ok (firsts (p :: ps)), s).
Proof.
  unfold T_item_plus1, mbind, M_bind. rewrite T_item_nonempty_0.
  cbn -[map]. unfold firsts. rewrite map_map. reflexivity.
Qed.

Lemma T_item_plus1_second (p : Z * Z) (ps : pair_list) (s : state) :
  T_item_plus1 (np_array (p :: ps)) 1 s = (Ok (seconds (p :: ps)), s).
Proof.
  unfold T_item_plus1, mbind, M_bind. rewrite T_item_nonempty_1.
  cbn -[map]. unfold seconds. rewrite map_map. reflexivity.
Qed.

Lemma T_item_plus1_empty (k : nat) (s : state) :
  T_item_plus1 (np_array []) k s = (Raised IndexError, s).
Proof. reflexivity. Qed.

(** ** Running the monad, one statement at a time *)

Lemma bind_eq {A B : Type} (m : M A) (f : A -> M B) (s : state) :
  (m ≫= f) s =
  match m s with
  | (Ok a, s') => f a s'
  | (Raised e, s') => (Raised e, s')
  | (Wrong, s') => (Wrong, s')
  end.
Proof. reflexivity. Qed.

Lemma plt_figure_eq (fs : Z * Z) (s : state) :
  plt_figure fs s = (Ok (Figure fs.1 fs.2), State (heap s) (trace s ++ [PltFigure fs])).
Proof. reflexivity. Qed.

Lemma plt_subplot_eq (n : Z) (s : state) :
  plt_subplot n s = (Ok (Axes n), State (heap s) (trace s ++ [PltSubplot n])).
Proof. reflexivity. Qed.

Lemma alloc_eq (o : pyobj) (s : state) :
  alloc o s = (Ok (fresh (dom (heap s))), State (<[fresh (dom (heap s)) := o]> (heap s)) (trace s)).
Proof. reflexivity. Qed.

Lemma emit_eq (ev : event) (s : state) :
  emit ev s = (Ok tt, State (heap s) (trace s ++ [ev])).
Proof. reflexivity. Qed.

Lemma np_array_of_eq (l : loc) (ps : pair_list) (s : state) :
  heap s !! l = Some (OList ps) -> np_array_of l s = (Ok (np_array ps), s).
Proof. intros H. unfold np_array_of. rewrite bind_eq. unfold read_list. rewrite H. reflexivity. Qed.

Lemma read_dict_eq (l : loc) (d : gmap string pyval) (s : state) :
  heap s !! l = Some (ODict d) -> read_dict l s = (Ok d, s).
Proof. intros H. unfold read_dict. rewrite H. reflexivity. Qed.

Lemma dict_setitem_eq (l : loc) (k : string) (v : pyval) (d : gmap string pyval) (s : state) :
  heap s !! l = Some (ODict d) ->
  dict_setitem l k v s = (Ok tt, State (<[l := ODict (<[k := v]> d)]> (heap s)) (trace s)).
Proof. intros H. unfold dict_setitem. rewrite H. reflexivity. Qed.

(** An object of the store is still there after an allocation. *)
Lemma lookup_alloc_old (h : gmap loc pyobj) (k : loc) (o o' : pyobj) :
  h !! k = Some o -> <[fresh (dom h) := o']> h !! k = Some o.
Proof.
  intros H. rewrite lookup_insert_ne; [exact H|].
  intros E. apply (is_fresh (dom h)). rewrite E. apply elem_of_dom. eauto.
Qed.

Ltac run_step lem := rewrite bind_eq, lem; cbv beta iota zeta; cbn [heap trace app].

Lemma run_setup lp h l1 l2 l3 oc tp fp :
  inputs_at h l1 l2 l3 oc tp fp ->
  run lp l1 l2 l3 h =
  (let s := State (<[fresh (dom h) := ODict pprops_init]> h) setup_events in
   let a1 := np_array oc in let a2 := np_array tp in let a3 := np_array fp in
  (x0 ← T_item_plus1 a1 0; x1 ← T_item_plus1 a1 1;
  x2 ← T_item_plus1 a2 0; x3 ← T_item_plus1 a2 1;
  x4 ← T_item_plus1 a3 0; x5 ← T_item_plus1 a3 1;
  let x := [x0; x1; x2; x3; x4; x5] in
  y0 ← T_item_plus1 a1 1; y1 ← T_item_plus1 a1 0;
  y2 ← T_item_plus1 a2 1; y3 ← T_item_plus1 a2 0;
  y4 ← T_item_plus1 a3 1; y5 ← T_item_plus1 a3 0;
  let y := [y0; y1; y2; y3; y4; y5] in
  kw ← read_dict (fresh (dom h));
  _ ← emit (MpPlot "scatter" (Axes 111) x y kw);
  _ ← dict_setitem (fresh (dom h)) "colors" (strs [C_CONTACT; C_TRUEPOS; C_FALSEPOS]);
  kw ← read_dict (fresh (dom h));
  _ ← emit (MpScatter (Axes 111) [[56]; [56]; [56]] [[52]; [48]; [44]] kw);
  _ ← emit (AxText (Axes 111) 57 52 "Other contacts" "left" "center" lp);
  _ ← emit (AxText (Axes 111) 57 48 "True positives" "left" "center" lp);
  _ ← emit (AxText (Axes 111) 57 44 "False positives" "left" "center" lp);
  plt_show) s).
Proof.
  intros (H1 & H2 & H3).
  unfold run, contact_plot_PF00014.
  run_step plt_figure_eq. run_step plt_subplot_eq. run_step alloc_eq.
  rewrite bind_eq, (np_array_of_eq l1 oc) by (apply lookup_alloc_old, H1).
  rewrite bind_eq, (np_array_of_eq l2 tp) by (apply lookup_alloc_old, H2).
  rewrite bind_eq, (np_array_of_eq l3 fp) by (apply lookup_alloc_old, H3).
  reflexivity.
Qed.

Lemma run_nonempty lp h l1 l2 l3 oc tp fp :
  inputs_at h l1 l2 l3 oc tp fp -> oc ≠ [] -> tp ≠ [] -> fp ≠ [] ->
  run lp l1 l2 l3 h =
    (Ok tt, State (<[fresh (dom h) := ODict pprops_legend]> h)
                  (setup_events ++ main_event oc tp fp :: legend_events lp ++ [PltShow])).
Proof.
  intros Hin Hoc Htp Hfp. rewrite (run_setup _ _ _ _ _ _ _ _ Hin).
  destruct oc as [|p1 oc]; [done|]. destruct tp as [|p2 tp]; [done|].
  destruct fp as [|p3 fp]; [done|].
  cbv zeta.
  do 2 (run_step T_item_plus1_first; run_step T_item_plus1_second).
  run_step T_item_plus1_first. run_step T_item_plus1_second.
  do 3 (run_step T_item_plus1_second; run_step T_item_plus1_first).
  rewrite bind_eq, (read_dict_eq _ pprops_init) by apply lookup_insert_eq.
  cbv beta iota. run_step emit_eq.
  rewrite bind_eq, (dict_setitem_eq _ _ _ pprops_init) by apply lookup_insert_eq.
  cbv beta iota. cbn [heap trace]. rewrite insert_insert_eq.
  rewrite bind_eq, (read_dict_eq _ pprops_legend) by apply lookup_insert_eq.
  cbv beta iota. do 4 run_step emit_eq.
  reflexivity.
Qed.

Lemma run_empty lp h l1 l2 l3 oc tp fp :
  inputs_at h l1 l2 l3 oc tp fp -> oc = [] ∨ tp = [] ∨ fp = [] ->
  run lp l1 l2 l3 h =
    (Raised IndexError, State (<[fresh (dom h) := ODict pprops_init]> h) setup_events).
Proof.
  intros Hin He. rewrite (run_setup _ _ _ _ _ _ _ _ Hin). cbv zeta.
  destruct oc as [|p1 oc]; [reflexivity|].
  run_step T_item_plus1_first. run_step T_item_plus1_second.
  destruct tp as [|p2 tp]; [reflexivity|].
  run_step T_item_plus1_first. run_step T_item_plus1_second.
  destruct fp as [|p3 fp]; [reflexivity|].
  destruct He as [He | [He | He]]; discriminate He.
Qed.

(** ** The three observations of a call, in closed form *)

Lemma all_nonempty_true (oc tp fp : pair_list) :
  all_nonempty oc tp fp = true <-> oc ≠ [] /\ tp ≠ [] /\ fp ≠ [].
Proof.
  unfold all_nonempty.
  rewrite !andb_true_iff, !negb_true_iff, !bool_decide_eq_false. tauto.
Qed.

Lemma all_nonempty_false (oc tp fp : pair_list) :
  all_nonempty oc tp fp = false <-> oc = [] \/ tp = [] \/ fp = [].
Proof.
  unfold all_nonempty.
  destruct oc, tp, fp; cbn; split; intros H; try discriminate H; auto;
    destruct H as [H | [H | H]]; discriminate H.
Qed.

Lemma run_spec lp h l1 l2 l3 oc tp fp :
  inputs_at h l1 l2 l3 oc tp fp ->
  run lp l1 l2 l3 h =
  if all_nonempty oc tp fp
  then (Ok tt, State (<[fresh (dom h) := ODict pprops_legend]> h)
                     (setup_events ++ main_event oc tp fp :: legend_events lp ++ [PltShow]))
  else (Raised IndexError, State (<[fresh (dom h) := ODict pprops_init]> h) setup_events).
Proof.
  intros Hin. destruct (all_nonempty oc tp fp) eqn:E.
  - apply (proj1 (all_nonempty_true oc tp fp)) in E as (? & ? & ?). by apply (run_nonempty lp h l1 l2 l3 oc tp fp).
  - apply (proj1 (all_nonempty_false oc tp fp)) in E. by apply (run_empty lp h l1 l2 l3 oc tp fp).
Qed.

Lemma events_nonempty lp h l1 l2 l3 oc tp fp :
  inputs_at h l1 l2 l3 oc tp fp -> oc ≠ [] -> tp ≠ [] -> fp ≠ [] ->
  events_of lp l1 l2 l3 h =
  setup_events ++ main_event oc tp fp :: legend_events lp ++ [PltShow].
Proof. intros. unfold events_of. by erewrite run_nonempty. Qed.

Lemma events_empty lp h l1 l2 l3 oc tp fp :
  inputs_at h l1 l2 l3 oc tp fp -> oc = [] \/ tp = [] \/ fp = [] ->
  events_of lp l1 l2 l3 h = setup_events.
Proof. intros. unfold events_of. by erewrite run_empty. Qed.

Lemma store_of_inputs (oc tp fp : pair_list) :
  inputs_at (store_of oc tp fp) 1%positive 2%positive 3%positive oc tp fp.
Proof. repeat split. Qed.

Lemma shared_store_inputs (ps : pair_list) :
  inputs_at (shared_store ps) 7%positive 7%positive 7%positive ps ps ps.
Proof. repeat split. Qed.

(** The two halves of a category, read back as points. *)
Lemma zip_firsts_seconds (ps : pair_list) :
  zip (entries (firsts ps)) (entries (seconds ps)) = map (fun p => (p.1 + 1, p.2 + 1)) ps.
Proof. induction ps as [|p ps IH]; [done|]. cbn in *. by rewrite IH. Qed.

Lemma zip_seconds_firsts (ps : pair_list) :
  zip (entries (seconds ps)) (entries (firsts ps)) = map (fun p => (p.2 + 1, p.1 + 1)) ps.
Proof. induction ps as [|p ps IH]; [done|]. cbn in *. by rewrite IH. Qed.

Lemma category_points_main (oc tp fp : pair_list) (c : category) :
  category_points (main_x oc tp fp) (main_y oc tp fp) c =
  map (fun p => (p.1 + 1, p.2 + 1)) (select c oc tp fp) ++
  map (fun p => (p.2 + 1, p.1 + 1)) (select c oc tp fp).
Proof.
  destruct c; unfold category_points, layer; cbn [index select main_x main_y lookup list_lookup Nat.mul Nat.add];
    by rewrite zip_firsts_seconds, zip_seconds_firsts.
Qed.

Lemma display_points_nonempty lp h l1 l2 l3 oc tp fp c :
  inputs_at h l1 l2 l3 oc tp fp -> oc ≠ [] -> tp ≠ [] -> fp ≠ [] ->
  display_points (events_of lp l1 l2 l3 h) c =
  map (fun p => (p.1 + 1, p.2 + 1)) (select c oc tp fp) ++
  map (fun p => (p.2 + 1, p.1 + 1)) (select c oc tp fp).
Proof.
  intros Hin Hoc Htp Hfp. rewrite (events_nonempty _ _ _ _ _ _ _ _ Hin Hoc Htp Hfp).
  unfold display_points. cbn [setup_events app main_calls omap list_omap main_event legend_events flat_map fst snd].
  rewrite app_nil_r. apply category_points_main.
Qed.

Lemma interleave_perm {A B : Type} (f g : A -> B) (l : list A) :
  map f l ++ map g l ≡ₚ flat_map (fun a => [f a; g a]) l.
Proof.
  induction l as [|a l IH]; [done|].
  cbn. rewrite <- IH. constructor. by rewrite <- Permutation_middle.
Qed.


Lemma colors_of_legend : colors_of pprops_legend = [C_CONTACT; C_TRUEPOS; C_FALSEPOS].
Proof. vm_compute. reflexivity. Qed.

Lemma axis_config_init : axis_config pprops_init.
Proof. repeat split. Qed.

(** Rebinding ["colors"] leaves the axis keys of a dictionary alone. *)
Lemma axis_config_set_colors (kw : gmap string pyval) (v : pyval) :
  axis_config kw -> axis_config (<["colors" := v]> kw).
Proof.
  unfold axis_config. intros H.
  rewrite !lookup_insert_ne by discriminate. exact H.
Qed.

Lemma heap_of_spec lp h l1 l2 l3 oc tp fp :
  inputs_at h l1 l2 l3 oc tp fp ->
  exists d, heap_of lp l1 l2 l3 h = <[fresh (dom h) := ODict d]> h /\
            (d = pprops_init \/ d = pprops_legend).
Proof.
  intros Hin. unfold heap_of. rewrite (run_spec _ _ _ _ _ _ _ _ Hin).
  destruct (all_nonempty oc tp fp); cbn [snd heap]; eauto.
Qed.

Lemma main_calls_nonempty lp h l1 l2 l3 oc tp fp :
  inputs_at h l1 l2 l3 oc tp fp -> oc ≠ [] -> tp ≠ [] -> fp ≠ [] ->
  main_calls (events_of lp l1 l2 l3 h) = [(main_x oc tp fp, main_y oc tp fp, pprops_init)].
Proof. intros Hin ? ? ?. by rewrite (events_nonempty _ _ _ _ _ _ _ _ Hin). Qed.

Lemma main_calls_empty lp h l1 l2 l3 oc tp fp :
  inputs_at h l1 l2 l3 oc tp fp -> oc = [] \/ tp = [] \/ fp = [] ->
  main_calls (events_of lp l1 l2 l3 h) = [].
Proof. intros Hin ?. by rewrite (events_empty _ _ _ _ _ _ _ _ Hin). Qed.

Lemma legend_markers_nonempty lp h l1 l2 l3 oc tp fp :
  inputs_at h l1 l2 l3 oc tp fp -> oc ≠ [] -> tp ≠ [] -> fp ≠ [] ->
  legend_markers (events_of lp l1 l2 l3 h) =
  [(56, 52, C_CONTACT); (56, 48, C_TRUEPOS); (56, 44, C_FALSEPOS)].
Proof.
  intros Hin ? ? ?. rewrite (events_nonempty _ _ _ _ _ _ _ _ Hin) by done.
  unfold legend_markers.
  cbn [setup_events app legend_calls omap list_omap main_event legend_events flat_map fst snd].
  rewrite colors_of_legend. reflexivity.
Qed.

Lemma labels_nonempty lp h l1 l2 l3 oc tp fp :
  inputs_at h l1 l2 l3 oc tp fp -> oc ≠ [] -> tp ≠ [] -> fp ≠ [] ->
  labels (events_of lp l1 l2 l3 h) =
  [ (57, 52, "Other contacts", "left", "center");
    (57, 48, "True positives", "left", "center");
    (57, 44, "False positives", "left", "center") ].
Proof. intros Hin ? ? ?. by rewrite (events_nonempty _ _ _ _ _ _ _ _ Hin). Qed.

(** Coinciding points are drawn as often as they are given. *)
Example coinciding_points_kept :
  let evs := events_of sample_labelprops 1 2 3
               (store_of [(0, 1); (0, 1)] [(0, 1)] [(1, 0)]) in
  display_points evs Other = [(1, 2); (1, 2); (2, 1); (2, 1)] /\
  display_points evs TruePos = [(1, 2); (2, 1)] /\
  display_points evs FalsePos = [(2, 1); (1, 2)].
Proof. vm_compute. repeat split. Qed.

(** * The claims *)

(** C1, counterexample.  Called with three empty lists the routine raises
    [IndexError] while it builds the coordinate lists: no scatter layer,
    empty or not, reaches the plotting layer, and no legend is drawn. *)
Lemma empty_lists_raise :
  outcome_of sample_labelprops 1 2 3 (store_of [] [] []) = Raised IndexError /\
  main_calls (events_of sample_labelprops 1 2 3 (store_of [] [] [])) = [] /\
  legend_calls (events_of sample_labelprops 1 2 3 (store_of [] [] [])) = [] /\
  labels (events_of sample_labelprops 1 2 3 (store_of [] [] [])) = [].
Proof. vm_compute. repeat split. Qed.

(** C1, amended.  A call runs to [plt.show()] without an exception exactly
    when its three lists are all non-empty; the plotting layer then
    receives the main scatter call (whatever coordinates the lists give),
    the legend and the show request, in this order.  When some list is
    empty the call raises [IndexError] after the figure and the axes were
    created and before any plotting call. *)
Theorem render_completes_iff_all_nonempty lp h l1 l2 l3 oc tp fp :
  inputs_at h l1 l2 l3 oc tp fp ->
  if all_nonempty oc tp fp
  then outcome_of lp l1 l2 l3 h = Ok tt /\
       exists x y,
         events_of lp l1 l2 l3 h =
         setup_events ++
         MpPlot "scatter" (Axes 111) x y pprops_init :: legend_events lp ++ [PltShow]
  else outcome_of lp l1 l2 l3 h = Raised IndexError /\
       events_of lp l1 l2 l3 h = setup_events.
Proof.
  intros Hin. unfold outcome_of, events_of. rewrite (run_spec _ _ _ _ _ _ _ _ Hin).
  destruct (all_nonempty oc tp fp); split; try reflexivity.
  exists (main_x oc tp fp), (main_y oc tp fp). reflexivity.
Qed.

Lemma render_completes_iff_all_nonempty_witness :
  inputs_at (store_of [(0, 1)] [(4, 5)] [(2, 3)]) 1 2 3 [(0, 1)] [(4, 5)] [(2, 3)] /\
  outcome_of sample_labelprops 1 2 3 (store_of [(0, 1)] [(4, 5)] [(2, 3)]) = Ok tt /\
  outcome_of sample_labelprops 1 2 3 (store_of [(0, 1)] [] [(2, 3)]) = Raised IndexError.
Proof.
  split; [repeat split|]. split.
  - apply (render_completes_iff_all_nonempty sample_labelprops
             (store_of [(0, 1)] [(4, 5)] [(2, 3)]) 1 2 3 [(0, 1)] [(4, 5)] [(2, 3)]).
    repeat split.
  - apply (render_completes_iff_all_nonempty sample_labelprops
             (store_of [(0, 1)] [] [(2, 3)]) 1 2 3 [(0, 1)] [] [(2, 3)]).
    repeat split.
Defined.

(** C2, counterexample.  A pair of a non-empty category yields no display
    point at all when another category is empty. *)
Lemma pair_not_emitted_beside_empty_category :
  display_points (events_of sample_labelprops 1 2 3 (store_of [(0, 1)] [] [])) Other = [].
Proof. vm_compute. reflexivity. Qed.

(** C2, amended.  In a call whose three lists are all non-empty, every
    category has twice as many display points as pairs.  When the indices
    of the category are held exactly ([int64_safe]: 64-bit signed, with
    room for the shift), its display points are the points [(i+1, j+1)] of
    its pairs followed by the points [(j+1, i+1)] of its pairs: exactly
    these two points for every pair. *)
Theorem two_display_points_per_pair lp h l1 l2 l3 oc tp fp (c : category) :
  inputs_at h l1 l2 l3 oc tp fp -> oc ≠ [] -> tp ≠ [] -> fp ≠ [] ->
  length (display_points (events_of lp l1 l2 l3 h) c) =
    (2 * length (select c oc tp fp))%nat /\
  (Forall int64_safe (select c oc tp fp) ->
   display_points (events_of lp l1 l2 l3 h) c =
     map (fun p => (p.1 + 1, p.2 + 1)) (select c oc tp fp) ++
     map (fun p => (p.2 + 1, p.1 + 1)) (select c oc tp fp) /\
   display_points (events_of lp l1 l2 l3 h) c ≡ₚ
     flat_map (fun p => [(p.1 + 1, p.2 + 1); (p.2 + 1, p.1 + 1)]) (select c oc tp fp)).
Proof.
  intros Hin Hoc Htp Hfp.
  rewrite (display_points_nonempty _ _ _ _ _ _ _ _ c Hin Hoc Htp Hfp).
  split.
  - rewrite length_app, !length_map. lia.
  - intros _. split; [reflexivity|].
    apply (interleave_perm (fun p : Z * Z => (p.1 + 1, p.2 + 1))
                           (fun p : Z * Z => (p.2 + 1, p.1 + 1))).
Qed.

Lemma two_display_points_per_pair_witness :
  display_points
    (events_of sample_labelprops 1 2 3 (store_of [(0, 1); (5, 2)] [(4, 4)] [(2, 3)])) Other
  = [(1, 2); (6, 3); (2, 1); (3, 6)].
Proof.
  apply (two_display_points_per_pair sample_labelprops
           (store_of [(0, 1); (5, 2)] [(4, 4)] [(2, 3)]) 1 2 3
           [(0, 1); (5, 2)] [(4, 4)] [(2, 3)] Other);
    [repeat split | discriminate | discriminate | discriminate | ].
  repeat constructor; vm_compute; discriminate.
Defined.

(** C3, counterexample.  On [other_contacts=[(0,1)]], [true_positives=[]],
    [false_positives=[(2,3)]] the call raises [IndexError]: the background
    and false-positive layers hold no point and no legend is drawn. *)
Lemma scenario_with_empty_true_positives_raises :
  outcome_of sample_labelprops 1 2 3 (store_of [(0, 1)] [] [(2, 3)]) = Raised IndexError /\
  display_points (events_of sample_labelprops 1 2 3 (store_of [(0, 1)] [] [(2, 3)])) Other = [] /\
  display_points (events_of sample_labelprops 1 2 3 (store_of [(0, 1)] [] [(2, 3)])) FalsePos = [] /\
  legend_markers (events_of sample_labelprops 1 2 3 (store_of [(0, 1)] [] [(2, 3)])) = [].
Proof. vm_compute. repeat split. Qed.

(** C3, amended.  For [other_contacts=[(0,1)]] and
    [false_positives=[(2,3)]]: with any non-empty [true_positives] the
    background layer's display points are (1,2) and (2,1), the
    false-positive layer's are (3,4) and (4,3), and the legend is the fixed
    one; with [true_positives=[]] the call raises [IndexError] and the
    plotting layer receives neither a layer nor the legend. *)
Theorem scenario_layers lp h l1 l2 l3 (tp : pair_list) :
  inputs_at h l1 l2 l3 [(0, 1)] tp [(2, 3)] ->
  match tp with
  | [] =>
      outcome_of lp l1 l2 l3 h = Raised IndexError /\
      main_calls (events_of lp l1 l2 l3 h) = [] /\
      legend_markers (events_of lp l1 l2 l3 h) = [] /\
      labels (events_of lp l1 l2 l3 h) = []
  | _ :: _ =>
      outcome_of lp l1 l2 l3 h = Ok tt /\
      display_points (events_of lp l1 l2 l3 h) Other = [(1, 2); (2, 1)] /\
      display_points (events_of lp l1 l2 l3 h) FalsePos = [(3, 4); (4, 3)] /\
      legend_markers (events_of lp l1 l2 l3 h) =
        [(56, 52, C_CONTACT); (56, 48, C_TRUEPOS); (56, 44, C_FALSEPOS)] /\
      labels (events_of lp l1 l2 l3 h) =
        [ (57, 52, "Other contacts", "left", "center");
          (57, 48, "True positives", "left", "center");
          (57, 44, "False positives", "left", "center") ]
  end.
Proof.
  intros Hin. destruct tp as [|p tp].
  - unfold outcome_of. rewrite (events_empty _ _ _ _ _ _ _ _ Hin) by auto.
    rewrite (run_empty _ _ _ _ _ _ _ _ Hin) by auto. repeat split.
  - assert (Hoc : [(0, 1)] ≠ @nil (Z * Z)) by discriminate.
    assert (Htp : p :: tp ≠ []) by discriminate.
    assert (Hfp : [(2, 3)] ≠ @nil (Z * Z)) by discriminate.
    unfold outcome_of. rewrite (run_nonempty _ _ _ _ _ _ _ _ Hin Hoc Htp Hfp).
    rewrite !(display_points_nonempty _ _ _ _ _ _ _ _ _ Hin Hoc Htp Hfp).
    rewrite (legend_markers_nonempty _ _ _ _ _ _ _ _ Hin Hoc Htp Hfp).
    rewrite (labels_nonempty _ _ _ _ _ _ _ _ Hin Hoc Htp Hfp).
    repeat split.
Qed.

Lemma scenario_layers_witness :
  display_points (events_of sample_labelprops 1 2 3 (store_of [(0, 1)] [(4, 5)] [(2, 3)])) Other
    = [(1, 2); (2, 1)] /\
  display_points (events_of sample_labelprops 1 2 3 (store_of [(0, 1)] [(4, 5)] [(2, 3)])) FalsePos
    = [(3, 4); (4, 3)].
Proof.
  assert (Hin : inputs_at (store_of [(0, 1)] [(4, 5)] [(2, 3)]) 1 2 3
                  [(0, 1)] [(4, 5)] [(2, 3)]) by (repeat split).
  destruct (scenario_layers sample_labelprops _ 1 2 3 [(4, 5)] Hin) as (_ & Ho & Hf & _).
  split; [exact Ho | exact Hf].
Defined.




(** C5.  In every call, whatever the lists hold, the [pprops] dictionary
    the call builds has x and y limits [1, 55], x and y ticks
    0, 10, 20, 30, 40, 50, 55 and the axis label 'PF00014 sites' on both
    axes, and so has every keyword dictionary handed to a plotting call. *)
Theorem axis_config_invariant lp h l1 l2 l3 oc tp fp :
  inputs_at h l1 l2 l3 oc tp fp ->
  (exists d, heap_of lp l1 l2 l3 h !! fresh (dom h) = Some (ODict d) /\ axis_config d) /\
  Forall axis_config (plot_kwargs (events_of lp l1 l2 l3 h)).
Proof.
  intros Hin. split.
  - destruct (heap_of_spec lp _ _ _ _ _ _ _ Hin) as (d & -> & Hd).
    exists d. split; [apply lookup_insert_eq|].
    destruct Hd as [-> | ->].
    + apply axis_config_init.
    + apply axis_config_set_colors, axis_config_init.
  - unfold events_of. rewrite (run_spec _ _ _ _ _ _ _ _ Hin).
    destruct (all_nonempty oc tp fp); cbn.
    + repeat constructor; try apply axis_config_init.
      all: apply axis_config_set_colors, axis_config_init.
    + constructor.
Qed.

Lemma axis_config_invariant_witness :
  Forall axis_config
    (plot_kwargs (events_of sample_labelprops 1 2 3 (store_of [(0, 1)] [(4, 5)] [(2, 3)]))) /\
  Forall axis_config
    (plot_kwargs (events_of sample_labelprops 1 2 3 (store_of [] [(4, 5)] []))).
Proof.
  split.
  - apply (axis_config_invariant sample_labelprops
             (store_of [(0, 1)] [(4, 5)] [(2, 3)]) 1 2 3 [(0, 1)] [(4, 5)] [(2, 3)]).
    repeat split.
  - apply (axis_config_invariant sample_labelprops
             (store_of [] [(4, 5)] []) 1 2 3 [] [(4, 5)] []).
    repeat split.
Defined.

(** C6, counterexample.  A self-pair yields no display point when another
    category is empty. *)
Lemma self_pair_not_emitted_beside_empty_category :
  display_points (events_of sample_labelprops 1 2 3 (store_of [(3, 3)] [] [(0, 1)])) Other = [].
Proof. vm_compute. reflexivity. Qed.

(** C6, amended.  In a call whose three lists are all non-empty, a
    self-pair [(i, i)] at position [n] of a category gives two display
    points of that category, at positions [n] and [length + n], and the
    two coincide; when the indices of the category are held exactly
    ([int64_safe]) both are [(i+1, i+1)].  Self-pairs are mirrored like
    every other pair. *)
Theorem self_pair_mirrored_twice lp h l1 l2 l3 oc tp fp (c : category) (n : nat) (i : Z) :
  inputs_at h l1 l2 l3 oc tp fp -> oc ≠ [] -> tp ≠ [] -> fp ≠ [] ->
  select c oc tp fp !! n = Some (i, i) ->
  (exists q,
     display_points (events_of lp l1 l2 l3 h) c !! n = Some q /\
     display_points (events_of lp l1 l2 l3 h) c !! (length (select c oc tp fp) + n)%nat
       = Some q) /\
  (Forall int64_safe (select c oc tp fp) ->
   display_points (events_of lp l1 l2 l3 h) c !! n = Some (i + 1, i + 1) /\
   display_points (events_of lp l1 l2 l3 h) c !! (length (select c oc tp fp) + n)%nat
     = Some (i + 1, i + 1)).
Proof.
  intros Hin Hoc Htp Hfp Hn.
  rewrite (display_points_nonempty _ _ _ _ _ _ _ _ c Hin Hoc Htp Hfp).
  assert (H1 : (map (fun p : Z * Z => (p.1 + 1, p.2 + 1)) (select c oc tp fp) ++
                map (fun p : Z * Z => (p.2 + 1, p.1 + 1)) (select c oc tp fp)) !! n
               = Some (i + 1, i + 1)).
  { rewrite lookup_app_l by (rewrite length_map; eapply lookup_lt_Some, Hn).
    rewrite list_lookup_fmap, Hn. reflexivity. }
  assert (H2 : (map (fun p : Z * Z => (p.1 + 1, p.2 + 1)) (select c oc tp fp) ++
                map (fun p : Z * Z => (p.2 + 1, p.1 + 1)) (select c oc tp fp))
                 !! (length (select c oc tp fp) + n)%nat
               = Some (i + 1, i + 1)).
  { rewrite lookup_app_r by (rewrite length_map; lia).
    rewrite length_map, Nat.add_comm, Nat.add_sub.
    rewrite list_lookup_fmap, Hn. reflexivity. }
  split; [exists (i + 1, i + 1)|intros _]; split; assumption.
Qed.

Lemma self_pair_mirrored_twice_witness :
  display_points
    (events_of sample_labelprops 1 2 3 (store_of [(0, 1)] [(8, 9); (3, 3)] [(2, 3)])) TruePos
    !! 1%nat = Some (4, 4) /\
  display_points
    (events_of sample_labelprops 1 2 3 (store_of [(0, 1)] [(8, 9); (3, 3)] [(2, 3)])) TruePos
    !! 3%nat = Some (4, 4).
Proof.
  apply (self_pair_mirrored_twice sample_labelprops
           (store_of [(0, 1)] [(8, 9); (3, 3)] [(2, 3)]) 1 2 3
           [(0, 1)] [(8, 9); (3, 3)] [(2, 3)] TruePos 1 3);
    [repeat split | discriminate | discriminate | discriminate | reflexivity | ].
  repeat constructor; vm_compute; discriminate.
Defined.

(** C7.  A call makes at most one main scatter call, and exactly one when
    its lists are non-empty.  Its coordinate sub-lists come in the fixed
    order background, true positives, false positives: category number
    [k] owns sub-lists [2k] and [2k+1], and each of them holds one entry
    per pair of that category, so that coinciding points are kept, within
    a category and across categories.  When the indices of the category
    are held exactly ([int64_safe]) the two sub-lists of [x] are its first
    and its second indices, in input order, each shifted by one. *)
Theorem main_call_category_order lp h l1 l2 l3 oc tp fp :
  inputs_at h l1 l2 l3 oc tp fp ->
  (length (main_calls (events_of lp l1 l2 l3 h)) <= 1)%nat /\
  (forall x y kw, (x, y, kw) ∈ main_calls (events_of lp l1 l2 l3 h) ->
     length x = 6%nat /\ length y = 6%nat /\
     forall c : category,
       (exists a b,
          x !! (2 * index c)%nat = Some a /\ x !! (2 * index c + 1)%nat = Some b /\
          y !! (2 * index c)%nat = Some b /\ y !! (2 * index c + 1)%nat = Some a /\
          length (entries a) = length (select c oc tp fp) /\
          length (entries b) = length (select c oc tp fp)) /\
       length (category_points x y c) = (2 * length (select c oc tp fp))%nat /\
       (Forall int64_safe (select c oc tp fp) ->
        x !! (2 * index c)%nat =
          Some (Arr1 (map (fun p => p.1 + 1) (select c oc tp fp))) /\
        x !! (2 * index c + 1)%nat =
          Some (Arr1 (map (fun p => p.2 + 1) (select c oc tp fp))))) /\
  (all_nonempty oc tp fp = true -> length (main_calls (events_of lp l1 l2 l3 h)) = 1%nat).
Proof.
  intros Hin. destruct (all_nonempty oc tp fp) eqn:E.
  - apply (proj1 (all_nonempty_true oc tp fp)) in E as (Hoc & Htp & Hfp).
    rewrite (main_calls_nonempty _ _ _ _ _ _ _ _ Hin Hoc Htp Hfp).
    split; [cbn; lia|]. split; [|reflexivity].
    intros x y kw Hel. apply list_elem_of_singleton in Hel.
    injection Hel as -> -> ->. split; [reflexivity|]. split; [reflexivity|].
    intros c. split; [|split].
    + exists (firsts (select c oc tp fp)), (seconds (select c oc tp fp)).
      destruct c; cbn [index select]; repeat split; cbn; by rewrite length_map.
    + rewrite category_points_main, length_app, !length_map. lia.
    + intros _. destruct c; split; reflexivity.
  - apply (proj1 (all_nonempty_false oc tp fp)) in E.
    rewrite (main_calls_empty _ _ _ _ _ _ _ _ Hin E).
    split; [cbn; lia|]. split; [|discriminate].
    intros x y kw Hel. inversion Hel.
Qed.

Lemma main_call_category_order_witness :
  length (main_calls
            (events_of sample_labelprops 1 2 3
               (store_of [(0, 1); (0, 1)] [(0, 1)] [(1, 0); (0, 1)]))) = 1%nat.
Proof.
  apply (main_call_category_order sample_labelprops
           (store_of [(0, 1); (0, 1)] [(0, 1)] [(1, 0); (0, 1)]) 1 2 3
           [(0, 1); (0, 1)] [(0, 1)] [(1, 0); (0, 1)]);
    [repeat split | reflexivity].
Defined.



(** C9.  A call leaves its three argument lists as they were: after the
    call, completed or aborted, each of the three names still denotes a
    list with the same elements, and so does every object the store held
    before the call.  The call writes only to the dictionary it
    allocates. *)
Theorem inputs_not_mutated lp h l1 l2 l3 oc tp fp :
  inputs_at h l1 l2 l3 oc tp fp ->
  inputs_at (heap_of lp l1 l2 l3 h) l1 l2 l3 oc tp fp /\
  (forall l, is_Some (h !! l) -> heap_of lp l1 l2 l3 h !! l = h !! l).
Proof.
  intros Hin. destruct (heap_of_spec lp _ _ _ _ _ _ _ Hin) as (d & -> & _).
  assert (Hold : forall l, is_Some (h !! l) -> <[fresh (dom h) := ODict d]> h !! l = h !! l).
  { intros l [o Ho]. rewrite Ho. by apply lookup_alloc_old. }
  split; [|exact Hold].
  destruct Hin as (H1 & H2 & H3). unfold inputs_at.
  rewrite !Hold by eauto. auto.
Qed.

Lemma inputs_not_mutated_witness :
  inputs_at (heap_of sample_labelprops 1 2 3 (store_of [(0, 1)] [(4, 5)] [(2, 3)])) 1 2 3
    [(0, 1)] [(4, 5)] [(2, 3)] /\
  inputs_at (heap_of sample_labelprops 7 7 7 (shared_store [])) 7 7 7 [] [] [].
Proof.
  split.
  - apply (inputs_not_mutated sample_labelprops
             (store_of [(0, 1)] [(4, 5)] [(2, 3)]) 1 2 3 [(0, 1)] [(4, 5)] [(2, 3)]).
    repeat split.
  - apply (inputs_not_mutated sample_labelprops (shared_store []) 7 7 7 [] [] []).
    repeat split.
Defined.

(** C10.  Two calls whose lists are element-wise equal, wherever the lists
    live and whatever else the store holds, end the same way and hand the
    plotting layer the same calls with the same arguments: coordinate
    sub-lists, colours, styling options, legend points and label texts. *)
Theorem equal_lists_equal_plots lp h h' l1 l2 l3 l1' l2' l3' oc tp fp :
  inputs_at h l1 l2 l3 oc tp fp ->
  inputs_at h' l1' l2' l3' oc tp fp ->
  outcome_of lp l1 l2 l3 h = outcome_of lp l1' l2' l3' h' /\
  events_of lp l1 l2 l3 h = events_of lp l1' l2' l3' h'.
Proof.
  intros Hin Hin'. unfold outcome_of, events_of.
  rewrite (run_spec _ _ _ _ _ _ _ _ Hin), (run_spec _ _ _ _ _ _ _ _ Hin').
  destruct (all_nonempty oc tp fp); split; reflexivity.
Qed.

Lemma equal_lists_equal_plots_witness :
  events_of sample_labelprops 1 2 3 (store_of [(0, 1)] [(0, 1)] [(0, 1)]) =
  events_of sample_labelprops 7 7 7 (shared_store [(0, 1)]).
Proof.
  apply (equal_lists_equal_plots sample_labelprops
           (store_of [(0, 1)] [(0, 1)] [(0, 1)]) (shared_store [(0, 1)])
           1 2 3 7 7 7 [(0, 1)] [(0, 1)] [(0, 1)]);
    repeat split.
Defined.

(** * Further properties of the routine *)

(** ** Helper lemmas *)

Lemma exec_nonempty lp h t l1 l2 l3 oc tp fp :
  inputs_at h l1 l2 l3 oc tp fp -> oc ≠ [] -> tp ≠ [] -> fp ≠ [] ->
  contact_plot_PF00014 lp l1 l2 l3 (State h t) =
    (Ok tt, State (<[fresh (dom h) := ODict pprops_legend]> h)
                  (t ++ setup_events ++ main_event oc tp fp :: legend_events lp ++ [PltShow])).
Proof.
  intros (H1 & H2 & H3) Hoc Htp Hfp.
  destruct oc as [|p1 oc]; [done|]. destruct tp as [|p2 tp]; [done|].
  destruct fp as [|p3 fp]; [done|].
  unfold contact_plot_PF00014.
  run_step plt_figure_eq. run_step plt_subplot_eq. run_step alloc_eq.
  rewrite bind_eq, (np_array_of_eq l1 (p1 :: oc)) by (apply lookup_alloc_old, H1).
  rewrite bind_eq, (np_array_of_eq l2 (p2 :: tp)) by (apply lookup_alloc_old, H2).
  rewrite bind_eq, (np_array_of_eq l3 (p3 :: fp)) by (apply lookup_alloc_old, H3).
  cbv beta iota.
  do 3 (run_step T_item_plus1_first; run_step T_item_plus1_second).
  do 3 (run_step T_item_plus1_second; run_step T_item_plus1_first).
  rewrite bind_eq, (read_dict_eq _ pprops_init) by apply lookup_insert_eq.
  cbv beta iota. run_step emit_eq.
  rewrite bind_eq, (dict_setitem_eq _ _ _ pprops_init) by apply lookup_insert_eq.
  cbv beta iota. cbn [heap trace]. rewrite insert_insert_eq.
  rewrite bind_eq, (read_dict_eq _ pprops_legend) by apply lookup_insert_eq.
  cbv beta iota. do 4 run_step emit_eq.
  unfold plt_show. rewrite emit_eq. cbn [heap trace].
  rewrite <- !app_assoc. reflexivity.
Qed.

Lemma display_points_empty lp h l1 l2 l3 oc tp fp c :
  inputs_at h l1 l2 l3 oc tp fp -> oc = [] \/ tp = [] \/ fp = [] ->
  display_points (events_of lp l1 l2 l3 h) c = [].
Proof. intros Hin He. by rewrite (events_empty _ _ _ _ _ _ _ _ Hin He). Qed.

(** The display points of a category, whether or not the call completes. *)
Lemma display_points_spec lp h l1 l2 l3 oc tp fp c :
  inputs_at h l1 l2 l3 oc tp fp ->
  display_points (events_of lp l1 l2 l3 h) c =
  if all_nonempty oc tp fp
  then map (fun p => (p.1 + 1, p.2 + 1)) (select c oc tp fp) ++
       map (fun p => (p.2 + 1, p.1 + 1)) (select c oc tp fp)
  else [].
Proof.
  intros Hin. destruct (all_nonempty oc tp fp) eqn:E.
  - apply (proj1 (all_nonempty_true oc tp fp)) in E as (Hoc & Htp & Hfp).
    exact (display_points_nonempty lp h l1 l2 l3 oc tp fp c Hin Hoc Htp Hfp).
  - apply (proj1 (all_nonempty_false oc tp fp)) in E.
    exact (display_points_empty lp h l1 l2 l3 oc tp fp c Hin E).
Qed.

Lemma legend_markers_spec lp h l1 l2 l3 oc tp fp :
  inputs_at h l1 l2 l3 oc tp fp ->
  legend_markers (events_of lp l1 l2 l3 h) =
  if all_nonempty oc tp fp
  then [(56, 52, C_CONTACT); (56, 48, C_TRUEPOS); (56, 44, C_FALSEPOS)]
  else [].
Proof.
  intros Hin. destruct (all_nonempty oc tp fp) eqn:E.
  - apply (proj1 (all_nonempty_true oc tp fp)) in E as (Hoc & Htp & Hfp).
    exact (legend_markers_nonempty lp h l1 l2 l3 oc tp fp Hin Hoc Htp Hfp).
  - apply (proj1 (all_nonempty_false oc tp fp)) in E.
    by rewrite (events_empty _ _ _ _ _ _ _ _ Hin E).
Qed.

Lemma legend_calls_spec lp h l1 l2 l3 oc tp fp :
  inputs_at h l1 l2 l3 oc tp fp ->
  legend_calls (events_of lp l1 l2 l3 h) =
  if all_nonempty oc tp fp
  then [([[56]; [56]; [56]], [[52]; [48]; [44]], pprops_legend)]
  else [].
Proof.
  intros Hin. unfold events_of. rewrite (run_spec _ _ _ _ _ _ _ _ Hin).
  destruct (all_nonempty oc tp fp); reflexivity.
Qed.

Lemma main_calls_spec lp h l1 l2 l3 oc tp fp :
  inputs_at h l1 l2 l3 oc tp fp ->
  main_calls (events_of lp l1 l2 l3 h) =
  if all_nonempty oc tp fp
  then [(main_x oc tp fp, main_y oc tp fp, pprops_init)]
  else [].
Proof.
  intros Hin. unfold events_of. rewrite (run_spec _ _ _ _ _ _ _ _ Hin).
  destruct (all_nonempty oc tp fp); reflexivity.
Qed.

Lemma shifted_within_limits (p : Z * Z) :
  on_alignment p -> within_limits (p.1 + 1, p.2 + 1) /\ within_limits (p.2 + 1, p.1 + 1).
Proof. unfold on_alignment, within_limits. cbn. lia. Qed.

Lemma points_within_limits (ps : list (Z * Z)) :
  Forall on_alignment ps ->
  Forall within_limits (map (fun p => (p.1 + 1, p.2 + 1)) ps ++
                        map (fun p => (p.2 + 1, p.1 + 1)) ps).
Proof.
  intros H. apply Forall_app. split; apply Forall_fmap;
    (eapply Forall_impl; [exact H|]); intros p Hp; cbn; by apply shifted_within_limits.
Qed.

(** Storing some pairs the other way round permutes the mirrored points. *)
Lemma mirrored_same_contacts (ps qs : list (Z * Z)) :
  Forall2 same_contact ps qs ->
  map (fun p => (p.1 + 1, p.2 + 1)) ps ++ map (fun p => (p.2 + 1, p.1 + 1)) ps ≡ₚ
  map (fun p => (p.1 + 1, p.2 + 1)) qs ++ map (fun p => (p.2 + 1, p.1 + 1)) qs.
Proof.
  intros H.
  rewrite !(interleave_perm (fun p : Z * Z => (p.1 + 1, p.2 + 1))
                            (fun p : Z * Z => (p.2 + 1, p.1 + 1))).
  induction H as [|p q ps qs Hpq _ IH]; [done|].
  cbn [flat_map]. rewrite IH. apply Permutation_app_tail.
  destruct Hpq as [-> | ->]; [done|]. cbn. apply perm_swap.
Qed.

Lemma same_contacts_nil (ps qs : list (Z * Z)) :
  Forall2 same_contact ps qs -> (ps = [] <-> qs = []).
Proof. intros H. destruct H; split; intros E; done. Qed.

Lemma all_nonempty_same_shape (oc tp fp oc' tp' fp' : list (Z * Z)) :
  (oc = [] <-> oc' = []) -> (tp = [] <-> tp' = []) -> (fp = [] <-> fp' = []) ->
  all_nonempty oc tp fp = all_nonempty oc' tp' fp'.
Proof.
  intros Ho Ht Hf. unfold all_nonempty.
  rewrite (bool_decide_ext _ _ Ho), (bool_decide_ext _ _ Ht), (bool_decide_ext _ _ Hf).
  reflexivity.
Qed.

(** ** The drawn map *)

(** X1.  The display points of every category are symmetric about the
    diagonal: a category that holds the point [(a, b)] also holds
    [(b, a)], as often. *)
Theorem display_points_symmetric lp h l1 l2 l3 oc tp fp (c : category) :
  inputs_at h l1 l2 l3 oc tp fp ->
  map (fun q => (q.2, q.1)) (display_points (events_of lp l1 l2 l3 h) c) ≡ₚ
    display_points (events_of lp l1 l2 l3 h) c /\
  (forall a b, (a, b) ∈ display_points (events_of lp l1 l2 l3 h) c ->
               (b, a) ∈ display_points (events_of lp l1 l2 l3 h) c).
Proof.
  intros Hin.
  assert (Hperm : map (fun q : Z * Z => (q.2, q.1))
                    (display_points (events_of lp l1 l2 l3 h) c) ≡ₚ
                  display_points (events_of lp l1 l2 l3 h) c).
  { rewrite (display_points_spec _ _ _ _ _ _ _ _ c Hin).
    destruct (all_nonempty oc tp fp); [|done].
    rewrite map_app, !map_map. cbn [fst snd]. apply Permutation_app_comm. }
  split; [exact Hperm|].
  intros a b Hab. rewrite <- Hperm.
  apply list_elem_of_fmap. exists (a, b). split; [reflexivity | exact Hab].
Qed.

Lemma display_points_symmetric_witness :
  (6, 3) ∈ display_points
             (events_of sample_labelprops 1 2 3 (store_of [(0, 1); (2, 5)] [(4, 4)] [(2, 3)]))
             Other.
Proof.
  apply (display_points_symmetric sample_labelprops
           (store_of [(0, 1); (2, 5)] [(4, 4)] [(2, 3)]) 1 2 3
           [(0, 1); (2, 5)] [(4, 4)] [(2, 3)] Other);
    [repeat split | vm_compute; do 1 constructor; constructor].
Defined.

(** X2.  When the pairs of a category are indices of the 55 alignment
    sites (0 to 54), every display point of that category lies inside the
    axis limits [1, 55] x [1, 55] the configuration sets. *)
Theorem display_points_within_limits lp h l1 l2 l3 oc tp fp (c : category) :
  inputs_at h l1 l2 l3 oc tp fp ->
  Forall on_alignment (select c oc tp fp) ->
  Forall within_limits (display_points (events_of lp l1 l2 l3 h) c).
Proof.
  intros Hin Hr. rewrite (display_points_spec _ _ _ _ _ _ _ _ c Hin).
  destruct (all_nonempty oc tp fp); [|constructor].
  by apply points_within_limits.
Qed.

Lemma display_points_within_limits_witness :
  Forall within_limits
    (display_points
       (events_of sample_labelprops 1 2 3 (store_of [(0, 54)] [(4, 4)] [(2, 3)])) Other).
Proof.
  apply (display_points_within_limits sample_labelprops
           (store_of [(0, 54)] [(4, 4)] [(2, 3)]) 1 2 3 [(0, 54)] [(4, 4)] [(2, 3)] Other).
  - repeat split.
  - repeat constructor; cbn; lia.
Defined.

(** X3.  When the pairs of a category are indices of the alignment sites,
    no display point of that category sits on a legend marker: the legend
    column lies to the right of the upper x limit. *)
Theorem legend_clear_of_display_points lp h l1 l2 l3 oc tp fp (c : category) :
  inputs_at h l1 l2 l3 oc tp fp ->
  Forall on_alignment (select c oc tp fp) ->
  forall q m, q ∈ display_points (events_of lp l1 l2 l3 h) c ->
              m ∈ legend_markers (events_of lp l1 l2 l3 h) ->
              55 < m.1.1 /\ q ≠ m.1.
Proof.
  intros Hin Hr q m Hq Hm.
  assert (Hw : within_limits q).
  { revert Hq. apply Forall_forall.
    rewrite (display_points_spec _ _ _ _ _ _ _ _ c Hin).
    destruct (all_nonempty oc tp fp); [|constructor].
    by apply points_within_limits. }
  rewrite (legend_markers_spec _ _ _ _ _ _ _ _ Hin) in Hm.
  destruct (all_nonempty oc tp fp); [|inversion Hm].
  assert (Hx : m.1.1 = 56).
  { repeat (apply elem_of_cons in Hm as [-> | Hm]; [reflexivity|]). inversion Hm. }
  split; [lia|]. intros ->. destruct Hw as [Hw _]. lia.
Qed.

Lemma legend_clear_of_display_points_witness :
  (55, 1) ≠ (56, 52).
Proof.
  apply (legend_clear_of_display_points sample_labelprops
           (store_of [(0, 54)] [(4, 4)] [(2, 3)]) 1 2 3 [(0, 54)] [(4, 4)] [(2, 3)] Other
           ltac:(repeat split) ltac:(repeat constructor; cbn; lia)
           (55, 1) (56, 52, C_CONTACT)).
  - vm_compute. do 1 constructor. constructor.
  - vm_compute. constructor.
Defined.

(** X4.  The input of a category can be read back from what is plotted:
    with non-empty lists and the indices of the category held exactly
    ([int64_safe]), the first half of the category's display points,
    shifted back by one, is the category's list, and so is the second half
    with its coordinates exchanged.  Nothing is dropped, merged or
    reordered. *)
Theorem display_points_round_trip lp h l1 l2 l3 oc tp fp (c : category) :
  inputs_at h l1 l2 l3 oc tp fp -> oc ≠ [] -> tp ≠ [] -> fp ≠ [] ->
  Forall int64_safe (select c oc tp fp) ->
  map (fun q => (q.1 - 1, q.2 - 1))
      (take (length (select c oc tp fp)) (display_points (events_of lp l1 l2 l3 h) c))
    = select c oc tp fp /\
  map (fun q => (q.2 - 1, q.1 - 1))
      (drop (length (select c oc tp fp)) (display_points (events_of lp l1 l2 l3 h) c))
    = select c oc tp fp.
Proof.
  intros Hin Hoc Htp Hfp _.
  rewrite (display_points_nonempty _ _ _ _ _ _ _ _ c Hin Hoc Htp Hfp).
  rewrite take_app_length', drop_app_length' by (by rewrite length_map).
  rewrite !map_map.
  split.
  - rewrite <- (map_id (select c oc tp fp)) at 2. apply map_ext.
    intros [i j]. cbn. f_equal; lia.
  - rewrite <- (map_id (select c oc tp fp)) at 2. apply map_ext.
    intros [i j]. cbn. f_equal; lia.
Qed.

Lemma display_points_round_trip_witness :
  map (fun q => (q.1 - 1, q.2 - 1))
      (take 2 (display_points
                 (events_of sample_labelprops 1 2 3
                    (store_of [(0, 1)] [(4, 4)] [(2, 3); (2, 3)])) FalsePos))
  = [(2, 3); (2, 3)].
Proof.
  apply (display_points_round_trip sample_labelprops
           (store_of [(0, 1)] [(4, 4)] [(2, 3); (2, 3)]) 1 2 3
           [(0, 1)] [(4, 4)] [(2, 3); (2, 3)] FalsePos);
    [repeat split | discriminate | discriminate | discriminate | ].
  repeat constructor; vm_compute; discriminate.
Defined.

(** X5.  In every main scatter call, sub-list [k] of [x] and sub-list [k]
    of [y] have the same number of entries, for each of the six
    sub-lists: the plotting layer is never handed mismatched
    coordinates. *)
Theorem main_call_sublists_same_length lp h l1 l2 l3 oc tp fp :
  inputs_at h l1 l2 l3 oc tp fp ->
  forall x y kw, (x, y, kw) ∈ main_calls (events_of lp l1 l2 l3 h) ->
  forall k, (k < 6)%nat ->
  exists a b, x !! k = Some a /\ y !! k = Some b /\
              length (entries a) = length (entries b).
Proof.
  intros Hin x y kw Hel k Hk.
  rewrite (main_calls_spec _ _ _ _ _ _ _ _ Hin) in Hel.
  destruct (all_nonempty oc tp fp); [|inversion Hel].
  apply list_elem_of_singleton in Hel. injection Hel as -> -> ->.
  do 6 (destruct k as [|k];
        [eexists _, _; split; [reflexivity|]; split; [reflexivity|];
         cbn; by rewrite !length_map |]).
  lia.
Qed.

Lemma main_call_sublists_same_length_witness :
  exists a b,
    main_x [(0, 1); (7, 8)] [(4, 4)] [(2, 3)] !! 3%nat = Some a /\
    main_y [(0, 1); (7, 8)] [(4, 4)] [(2, 3)] !! 3%nat = Some b /\
    length (entries a) = length (entries b).
Proof.
  apply (main_call_sublists_same_length sample_labelprops
           (store_of [(0, 1); (7, 8)] [(4, 4)] [(2, 3)]) 1 2 3
           [(0, 1); (7, 8)] [(4, 4)] [(2, 3)] ltac:(repeat split)
           _ _ pprops_init).
  - vm_compute. constructor.
  - lia.
Defined.

(** ** Legend against layers *)



(** X7.  Rebinding ['colors'] before the legend is the only change to the
    keywords: the legend call and the main scatter call of one run agree
    on every other key, marker style ('plotprops') and theme included. *)
Theorem legend_keeps_styling lp h l1 l2 l3 oc tp fp :
  inputs_at h l1 l2 l3 oc tp fp ->
  forall x y kw xs ys kw',
    (x, y, kw) ∈ main_calls (events_of lp l1 l2 l3 h) ->
    (xs, ys, kw') ∈ legend_calls (events_of lp l1 l2 l3 h) ->
    (forall k : string, k ≠ "colors" -> kw' !! k = kw !! k) /\
    kw' !! "plotprops" =
      Some (VDict [("lw", VInt 0); ("s", VInt 25); ("marker", VStr "o");
                   ("clip_on", VBool false)]) /\
    kw' !! "theme" = Some (VStr "boxed").
Proof.
  intros Hin x y kw xs ys kw' Hm Hl.
  rewrite (main_calls_spec _ _ _ _ _ _ _ _ Hin) in Hm.
  rewrite (legend_calls_spec _ _ _ _ _ _ _ _ Hin) in Hl.
  destruct (all_nonempty oc tp fp); [|inversion Hm].
  apply list_elem_of_singleton in Hm. injection Hm as -> -> ->.
  apply list_elem_of_singleton in Hl. injection Hl as -> -> ->.
  split; [|split; reflexivity].
  intros k Hk. unfold pprops_legend. by rewrite lookup_insert_ne.
Qed.

Lemma legend_keeps_styling_witness :
  pprops_legend !! "theme" = Some (VStr "boxed").
Proof.
  apply (legend_keeps_styling sample_labelprops
           (store_of [(0, 1)] [(4, 4)] [(2, 3)]) 1 2 3 [(0, 1)] [(4, 4)] [(2, 3)]
           ltac:(repeat split)
           (main_x [(0, 1)] [(4, 4)] [(2, 3)]) (main_y [(0, 1)] [(4, 4)] [(2, 3)]) pprops_init
           [[56]; [56]; [56]] [[52]; [48]; [44]] pprops_legend).
  - vm_compute. constructor.
  - vm_compute. constructor.
Defined.

(** ** Dependence on the lists *)

(** X8.  The order of the pairs inside the lists only orders the points:
    two calls whose lists hold the same pairs in different orders give, for
    every category, the same display points up to order. *)
Theorem reordering_pairs_permutes_points lp h h' l1 l2 l3 l1' l2' l3'
    oc tp fp oc' tp' fp' (c : category) :
  inputs_at h l1 l2 l3 oc tp fp ->
  inputs_at h' l1' l2' l3' oc' tp' fp' ->
  oc ≡ₚ oc' -> tp ≡ₚ tp' -> fp ≡ₚ fp' ->
  display_points (events_of lp l1 l2 l3 h) c ≡ₚ
  display_points (events_of lp l1' l2' l3' h') c.
Proof.
  intros Hin Hin' Ho Ht Hf.
  rewrite (display_points_spec _ _ _ _ _ _ _ _ c Hin),
          (display_points_spec _ _ _ _ _ _ _ _ c Hin').
  assert (Hnil : forall a b : list (Z * Z), a ≡ₚ b -> (a = [] <-> b = [])).
  { intros a b Hab. split; intros ->.
    - by apply Permutation_nil.
    - symmetry in Hab. by apply Permutation_nil. }
  rewrite <- (all_nonempty_same_shape oc tp fp oc' tp' fp') by auto.
  destruct (all_nonempty oc tp fp); [|done].
  assert (Hs : select c oc tp fp ≡ₚ select c oc' tp' fp') by (destruct c; assumption).
  by rewrite Hs.
Qed.

Lemma reordering_pairs_permutes_points_witness :
  display_points
    (events_of sample_labelprops 1 2 3 (store_of [(0, 1); (5, 2)] [(4, 4)] [(2, 3)])) Other ≡ₚ
  display_points
    (events_of sample_labelprops 1 2 3 (store_of [(5, 2); (0, 1)] [(4, 4)] [(2, 3)])) Other.
Proof.
  apply (reordering_pairs_permutes_points sample_labelprops
           (store_of [(0, 1); (5, 2)] [(4, 4)] [(2, 3)])
           (store_of [(5, 2); (0, 1)] [(4, 4)] [(2, 3)]) 1 2 3 1 2 3
           [(0, 1); (5, 2)] [(4, 4)] [(2, 3)] [(5, 2); (0, 1)] [(4, 4)] [(2, 3)] Other);
    [repeat split | repeat split | apply perm_swap | reflexivity | reflexivity].
Defined.

(** X9.  It does not matter in which of its two orders a contact is
    stored: two calls whose lists hold, position by position, the same
    contacts, some as [(i, j)] and some as [(j, i)], give every category
    the same display points up to order. *)
Theorem pair_orientation_irrelevant lp h h' l1 l2 l3 l1' l2' l3'
    oc tp fp oc' tp' fp' (c : category) :
  inputs_at h l1 l2 l3 oc tp fp ->
  inputs_at h' l1' l2' l3' oc' tp' fp' ->
  Forall2 same_contact oc oc' -> Forall2 same_contact tp tp' ->
  Forall2 same_contact fp fp' ->
  display_points (events_of lp l1 l2 l3 h) c ≡ₚ
  display_points (events_of lp l1' l2' l3' h') c.
Proof.
  intros Hin Hin' Ho Ht Hf.
  rewrite (display_points_spec _ _ _ _ _ _ _ _ c Hin),
          (display_points_spec _ _ _ _ _ _ _ _ c Hin').
  rewrite <- (all_nonempty_same_shape oc tp fp oc' tp' fp')
    by (by apply same_contacts_nil).
  destruct (all_nonempty oc tp fp); [|done].
  apply mirrored_same_contacts. destruct c; assumption.
Qed.

Lemma pair_orientation_irrelevant_witness :
  display_points
    (events_of sample_labelprops 1 2 3 (store_of [(0, 1); (5, 2)] [(4, 4)] [(2, 3)])) Other ≡ₚ
  display_points
    (events_of sample_labelprops 1 2 3 (store_of [(1, 0); (5, 2)] [(4, 4)] [(3, 2)])) Other.
Proof.
  apply (pair_orientation_irrelevant sample_labelprops
           (store_of [(0, 1); (5, 2)] [(4, 4)] [(2, 3)])
           (store_of [(1, 0); (5, 2)] [(4, 4)] [(3, 2)]) 1 2 3 1 2 3
           [(0, 1); (5, 2)] [(4, 4)] [(2, 3)] [(1, 0); (5, 2)] [(4, 4)] [(3, 2)] Other);
    [repeat split | repeat split | | | ];
    repeat constructor; by right.
Defined.

(** ** Sequencing *)

(** X10.  The figure is shown only when it is complete: [plt.show] is
    called exactly in the calls that raise nothing, once, as the last
    call, after the main scatter call and the legend.  A call that raises
    shows nothing. *)
Theorem show_only_when_complete lp h l1 l2 l3 oc tp fp :
  inputs_at h l1 l2 l3 oc tp fp ->
  (PltShow ∈ events_of lp l1 l2 l3 h <-> outcome_of lp l1 l2 l3 h = Ok tt) /\
  (outcome_of lp l1 l2 l3 h = Ok tt ->
   exists evs, events_of lp l1 l2 l3 h = evs ++ [PltShow] /\ (PltShow ∉ evs) /\
               length (main_calls evs) = 1%nat /\ length (legend_calls evs) = 1%nat /\
               length (labels evs) = 3%nat).
Proof.
  intros Hin. unfold events_of, outcome_of. rewrite (run_spec _ _ _ _ _ _ _ _ Hin).
  destruct (all_nonempty oc tp fp); cbn [fst snd trace].
  - assert (Hev : exists evs,
               setup_events ++ main_event oc tp fp :: legend_events lp ++ [PltShow]
               = evs ++ [PltShow] /\ (PltShow ∉ evs) /\
               length (main_calls evs) = 1%nat /\ length (legend_calls evs) = 1%nat /\
               length (labels evs) = 3%nat).
    { exists (setup_events ++ main_event oc tp fp :: legend_events lp).
      split; [by rewrite <- app_assoc|]. split; [|by repeat split].
      intros Hel. cbn in Hel.
      repeat (apply elem_of_cons in Hel as [Hel | Hel]; [discriminate Hel|]).
      inversion Hel. }
    split; [|intros _; exact Hev]. split; [reflexivity|]. intros _.
    destruct Hev as (evs & -> & _). apply elem_of_app. right. constructor.
  - split; [|discriminate]. split; [|discriminate].
    intros Hel. cbn in Hel.
    repeat (apply elem_of_cons in Hel as [Hel | Hel]; [discriminate Hel|]).
    inversion Hel.
Qed.

Lemma show_only_when_complete_witness :
  (PltShow ∈ events_of sample_labelprops 1 2 3 (store_of [(0, 1)] [] [(2, 3)]) <->
   outcome_of sample_labelprops 1 2 3 (store_of [(0, 1)] [] [(2, 3)]) = Ok tt) /\
  (PltShow ∈ events_of sample_labelprops 7 7 7 (shared_store [(0, 1)]) <->
   outcome_of sample_labelprops 7 7 7 (shared_store [(0, 1)]) = Ok tt).
Proof.
  split.
  - apply (show_only_when_complete sample_labelprops
             (store_of [(0, 1)] [] [(2, 3)]) 1 2 3 [(0, 1)] [] [(2, 3)]).
    repeat split.
  - apply (show_only_when_complete sample_labelprops
             (shared_store [(0, 1)]) 7 7 7 [(0, 1)] [(0, 1)] [(0, 1)]).
    repeat split.
Defined.

(** X11.  Calls do not leak into one another.  Called twice in a row on
    the same non-empty lists, the routine completes twice and the second
    call hands the plotting layer exactly what the first one did (six
    colours for the layers again, although the first call rebound
    ['colors'] to three), and the lists are still intact afterwards.  If
    some list is empty the first call raises and the second is not
    reached. *)
Theorem second_call_repeats_first lp h l1 l2 l3 oc tp fp :
  inputs_at h l1 l2 l3 oc tp fp ->
  inputs_at (heap (run_twice lp l1 l2 l3 h).2) l1 l2 l3 oc tp fp /\
  if all_nonempty oc tp fp
  then (run_twice lp l1 l2 l3 h).1 = Ok tt /\
       trace (run_twice lp l1 l2 l3 h).2 =
         events_of lp l1 l2 l3 h ++ events_of lp l1 l2 l3 h
  else (run_twice lp l1 l2 l3 h).1 = Raised IndexError /\
       trace (run_twice lp l1 l2 l3 h).2 = events_of lp l1 l2 l3 h.
Proof.
  intros Hin. unfold events_of.
  assert (Hrun : run_twice lp l1 l2 l3 h =
                 match run lp l1 l2 l3 h with
                 | (Ok _, s') => contact_plot_PF00014 lp l1 l2 l3 s'
                 | (Raised e, s') => (Raised e, s')
                 | (Wrong, s') => (Wrong, s')
                 end) by reflexivity.
  rewrite Hrun, (run_spec _ _ _ _ _ _ _ _ Hin).
  destruct (all_nonempty oc tp fp) eqn:E.
  - apply (proj1 (all_nonempty_true oc tp fp)) in E as (Hoc & Htp & Hfp).
    assert (Hin1 : inputs_at (<[fresh (dom h) := ODict pprops_legend]> h) l1 l2 l3 oc tp fp).
    { destruct Hin as (H1 & H2 & H3). repeat split; by apply lookup_alloc_old. }
    rewrite (exec_nonempty lp _ _ l1 l2 l3 oc tp fp Hin1 Hoc Htp Hfp).
    cbn [fst snd heap trace]. split; [|split; reflexivity].
    destruct Hin1 as (H1 & H2 & H3). repeat split; by apply lookup_alloc_old.
  - cbn [fst snd heap trace]. split; [|split; reflexivity].
    destruct Hin as (H1 & H2 & H3). repeat split; by apply lookup_alloc_old.
Qed.

Lemma second_call_repeats_first_witness :
  trace (run_twice sample_labelprops 1 2 3 (store_of [(0, 1)] [(4, 4)] [(2, 3)])).2 =
    events_of sample_labelprops 1 2 3 (store_of [(0, 1)] [(4, 4)] [(2, 3)]) ++
    events_of sample_labelprops 1 2 3 (store_of [(0, 1)] [(4, 4)] [(2, 3)]).
Proof.
  apply (second_call_repeats_first sample_labelprops
           (store_of [(0, 1)] [(4, 4)] [(2, 3)]) 1 2 3 [(0, 1)] [(4, 4)] [(2, 3)]).
  repeat split.
Defined.
